(** * Portable binary serialization (portable_binary.c)

    A shallow embedding of the codec of [portable_binary.c]: the four
    primitive routines [write_int32], [write_float], [read_int32],
    [read_float], the record routines [write_struct], [read_struct] and
    the sample program [main], over a model of the part of <stdio.h> they
    call ([fopen], [fwrite], [fread], [fclose]).

    Conventions.
    - [uint8_t] is [Byte.byte]; [u8] is its value after integer promotion.
    - [int32_t] and [uint32_t] are [Z] with the wrap-around written out
      ([to_int32], [to_uint32]); [int] is 32 bits wide.
    - a [float] is known to the codec only through its 32-bit storage
      pattern (the two pointer casts), so it is modelled by that pattern.
    - a [FILE] is a byte sequence with a position and an end-of-file
      indicator; once the indicator is set, reads take nothing until it is
      cleared.
    - an uninitialised local array is an explicit argument holding its
      indeterminate prior contents. *)

From Stdlib Require Import ZArith List Bool Lia.
From Stdlib.Strings Require Import Byte.
Import ListNotations.

Local Open Scope Z_scope.

(** ** Machine integers *)

Definition uint8_t : Type := Byte.byte.

(** Value of a byte once promoted to [int]. *)
Definition u8 (b : uint8_t) : Z := Z.of_N (Byte.to_N b).

(** Conversion of an [int] to [uint8_t]: reduction modulo 256. *)
Definition to_uint8 (z : Z) : uint8_t :=
  match Byte.of_N (Z.to_N (z mod 256)) with
  | Some b => b
  | None => Byte.x00
  end.

(** Wrap-around into [int32_t] (two's complement). *)
Definition to_int32 (z : Z) : Z := (z + 2 ^ 31) mod 2 ^ 32 - 2 ^ 31.

(** Conversion to [uint32_t]: reduction modulo 2^32. *)
Definition to_uint32 (z : Z) : Z := z mod 2 ^ 32.

Definition int32_range (v : Z) : Prop := - 2 ^ 31 <= v < 2 ^ 31.

Definition uint32_range (v : Z) : Prop := 0 <= v < 2 ^ 32.

(** ** Floats, seen through their storage *)

(** [bits_of_float v] is [*((uint32_t* )&v)]; [float_of_bits b] is
    [*((float* )&b)]. *)
Record float : Type := float_of_bits { bits_of_float : Z }.

Definition binary32_pattern (v : float) : Prop := uint32_range (bits_of_float v).

(** ** Streams *)

Record FILE : Type := mkFILE {
  contents : list uint8_t;
  pos : nat;
  eof : bool
}.

(** [fopen(_, "wb")]: an empty stream. *)
Definition fopen_wb : FILE := mkFILE [] 0 false.

(** [fopen(_, "rb")] over stored bytes. *)
Definition fopen_rb (data : list uint8_t) : FILE := mkFILE data 0 false.

(** [fclose]: what stays in storage. *)
Definition fclose (file : FILE) : list uint8_t := contents file.

(** [fwrite(ptr, size, nmemb, file)]: the bytes go at the current position,
    which advances past them; a position beyond the end leaves a gap that
    reads as zeros.  The end-of-file indicator is not touched.  Returns the
    number of items written. *)
Definition fwrite (ptr : list uint8_t) (size nmemb : nat) (file : FILE)
  : nat * FILE :=
  let out := firstn (size * nmemb) ptr in
  (nmemb,
   mkFILE (firstn (pos file) (contents file)
             ++ repeat Byte.x00 (pos file - length (contents file))
             ++ out
             ++ skipn (pos file + length out) (contents file))
          (pos file + length out)
          (eof file)).

(** [fread(ptr, size, nmemb, file)].  Once the end-of-file indicator is set
    nothing is read: array, position and stream stay as they are and no
    item is counted.  Otherwise it takes the bytes that are available, up
    to [size * nmemb], stores them at the start of [ptr] and leaves the
    rest of [ptr] as it was; a short read sets the indicator.  Returns the
    new array, the number of complete items read and the stream. *)
Definition fread (ptr : list uint8_t) (size nmemb : nat) (file : FILE)
  : list uint8_t * nat * FILE :=
  if eof file then (ptr, 0%nat, file)
  else
    let want := (size * nmemb)%nat in
    let got := firstn want (skipn (pos file) (contents file)) in
    (got ++ skipn (length got) ptr,
     (length got / size)%nat,
     mkFILE (contents file)
            (pos file + length got)
            (length got <? want)%nat).

(** Indeterminate contents of a local [uint8_t bytes[4]] before any store. *)
Record uninit4 : Type := mk_uninit4 {
  junk0 : uint8_t; junk1 : uint8_t; junk2 : uint8_t; junk3 : uint8_t
}.

Definition array_of (j : uninit4) : list uint8_t :=
  [junk0 j; junk1 j; junk2 j; junk3 j].

(** [bytes[i]], promoted to [int]. *)
Definition idx (bytes : list uint8_t) (i : nat) : Z := u8 (nth i bytes Byte.x00).

(** ** The codec *)

Definition write_int32 (file : FILE) (value : Z) : FILE :=
  let bytes0 := to_uint8 (Z.land (Z.shiftr value 24) 255) in
  let bytes1 := to_uint8 (Z.land (Z.shiftr value 16) 255) in
  let bytes2 := to_uint8 (Z.land (Z.shiftr value 8) 255) in
  let bytes3 := to_uint8 (Z.land value 255) in
  snd (fwrite [bytes0; bytes1; bytes2; bytes3] 4 1 file).

Definition write_float (file : FILE) (value : float) : FILE :=
  let as_int := bits_of_float value in
  let bytes0 := to_uint8 (Z.land (Z.shiftr as_int 24) 255) in
  let bytes1 := to_uint8 (Z.land (Z.shiftr as_int 16) 255) in
  let bytes2 := to_uint8 (Z.land (Z.shiftr as_int 8) 255) in
  let bytes3 := to_uint8 (Z.land as_int 255) in
  snd (fwrite [bytes0; bytes1; bytes2; bytes3] 4 1 file).

(** [(bytes[0] << 24) | (bytes[1] << 16) | (bytes[2] << 8) | bytes[3]],
    before any conversion of the result. *)
Definition assemble (bytes : list uint8_t) : Z :=
  Z.lor (Z.lor (Z.lor (Z.shiftl (idx bytes 0) 24) (Z.shiftl (idx bytes 1) 16))
               (Z.shiftl (idx bytes 2) 8))
        (idx bytes 3).

(** The result of [fread] is dropped, as in the source.  The expression is
    evaluated in [int]: a first byte of 128 or more is shifted past
    [INT_MAX], which is taken as wrap-around ([to_int32]). *)
Definition read_int32 (bytes : uninit4) (file : FILE) : Z * FILE :=
  let '(bytes, _, file) := fread (array_of bytes) 4 1 file in
  (to_int32 (assemble bytes), file).

Definition read_float (bytes : uninit4) (file : FILE) : float * FILE :=
  let '(bytes, _, file) := fread (array_of bytes) 4 1 file in
  let as_int := to_uint32 (to_int32 (assemble bytes)) in
  (float_of_bits as_int, file).

Record MyStruct : Type := mkMyStruct { id : Z; value : float }.

Definition write_struct (file : FILE) (s : MyStruct) : FILE :=
  let file := write_int32 file (id s) in
  write_float file (value s).

(** [s] is the record behind the pointer on entry; the two buffers are the
    locals of the two callees. *)
Definition read_struct (bytes_i bytes_f : uninit4) (file : FILE) (s : MyStruct)
  : MyStruct * FILE :=
  let '(i, file) := read_int32 bytes_i file in
  let s := mkMyStruct i (value s) in
  let '(v, file) := read_float bytes_f file in
  let s := mkMyStruct (id s) v in
  (s, file).

(** ** The codec under the names of the specification *)

(** The bytes a routine leaves in a stream opened empty, and the value a
    routine returns on a stream opened over given bytes. *)
Definition encode_int32 (v : Z) : list uint8_t :=
  fclose (write_int32 fopen_wb v).

Definition encode_float (v : float) : list uint8_t :=
  fclose (write_float fopen_wb v).

Definition encode_record (s : MyStruct) : list uint8_t :=
  fclose (write_struct fopen_wb s).

Definition decode_int32 (bytes : uninit4) (src : list uint8_t) : Z :=
  fst (read_int32 bytes (fopen_rb src)).

Definition decode_float (bytes : uninit4) (src : list uint8_t) : float :=
  fst (read_float bytes (fopen_rb src)).

Definition decode_record (bytes_i bytes_f : uninit4) (src : list uint8_t)
    (s : MyStruct) : MyStruct :=
  fst (read_struct bytes_i bytes_f (fopen_rb src) s).

(** Big-endian value of four bytes, as an unsigned number. *)
Definition be32 (b0 b1 b2 b3 : uint8_t) : Z :=
  u8 b0 * 2 ^ 24 + u8 b1 * 2 ^ 16 + u8 b2 * 2 ^ 8 + u8 b3.

Definition zeroed : uninit4 := mk_uninit4 Byte.x00 Byte.x00 Byte.x00 Byte.x00.

(** ** Vocabulary for statements about streams *)

(** The bytes ahead of the position. *)
Definition available (file : FILE) : list uint8_t :=
  skipn (pos file) (contents file).

(** The position lies inside the stream or at its end; every stream that is
    opened and then only written and read sequentially is of this kind. *)
Definition stream_ok (file : FILE) : Prop :=
  (pos file <= length (contents file))%nat.

(** The bytes a stream received between two of its states. *)
Definition emitted (before after : FILE) : list uint8_t :=
  firstn (pos after - pos before) (skipn (pos before) (contents after)).

(** A stream after [bs] went in at its position. *)
Definition stream_put (bs : list uint8_t) (file : FILE) : FILE :=
  mkFILE (firstn (pos file) (contents file)
            ++ repeat Byte.x00 (pos file - length (contents file))
            ++ bs
            ++ skipn (pos file + length bs) (contents file))
         (pos file + length bs) (eof file).

(** The bytes a read can take: those ahead of the position, and none once
    the end-of-file indicator is set. *)
Definition readable (file : FILE) : list uint8_t :=
  if eof file then [] else available file.

(** ** The decoders as the specification words them

    A primitive decode needs four bytes and reports Truncated Input when the
    source has fewer; a record decode is the integer decode followed by
    the float decode, and fails when either of them fails. *)

Inductive decode_outcome (A : Type) : Type :=
| Decoded (a : A)
| Truncated_Input.

Arguments Decoded {A} a.
Arguments Truncated_Input {A}.

Definition spec_decode_int32 (src : list uint8_t) : decode_outcome Z :=
  match src with
  | b0 :: b1 :: b2 :: b3 :: _ => Decoded (to_int32 (be32 b0 b1 b2 b3))
  | _ => Truncated_Input
  end.

Definition spec_decode_float (src : list uint8_t) : decode_outcome float :=
  match src with
  | b0 :: b1 :: b2 :: b3 :: _ => Decoded (float_of_bits (be32 b0 b1 b2 b3))
  | _ => Truncated_Input
  end.

Definition spec_decode_record (src : list uint8_t) : decode_outcome MyStruct :=
  match spec_decode_int32 src with
  | Truncated_Input => Truncated_Input
  | Decoded i =>
      match spec_decode_float (skipn 4 src) with
      | Truncated_Input => Truncated_Input
      | Decoded v => Decoded (mkMyStruct i v)
      end
  end.

(** A C routine with result type [A] hands its caller a value of [A] and
    nothing else; it realises a specified outcome when the outcome is that
    value. *)
Definition realises {A : Type} (returned : A) (o : decode_outcome A) : Prop :=
  o = Decoded returned.

(** [fseek(file, p, SEEK_SET)]: the stream at another position; the
    contents are kept and the end-of-file indicator is cleared. *)
Definition seek (p : nat) (file : FILE) : FILE :=
  mkFILE (contents file) p false.

(** ** The sample program *)

(** What [main] meets outside itself: the bytes stored under "data.bin", if
    there is such a file, and whether it may be opened for writing and for
    reading. *)
Record storage : Type := mkStorage {
  data_bin : option (list uint8_t);
  may_write : bool;
  may_read : bool
}.

(** [fopen("data.bin", "wb")]: NULL when refused, an empty stream
    otherwise. *)
Definition fopen_data_wb (st : storage) : option FILE :=
  if may_write st then Some fopen_wb else None.

(** [fclose] of the stream written: its contents are the stored file from
    now on. *)
Definition fclose_data_wb (file : FILE) (st : storage) : storage :=
  mkStorage (Some (fclose file)) (may_write st) (may_read st).

(** [fopen("data.bin", "rb")]: NULL when refused or when there is no such
    file, a stream over the stored bytes otherwise. *)
Definition fopen_data_rb (st : storage) : option FILE :=
  if may_read st then option_map fopen_rb (data_bin st) else None.

(** The two arguments given to [printf], the status returned, and the
    storage left behind. *)
Record main_result : Type := mkResult {
  printed_id : Z;
  printed_value : float;
  exit_status : Z;
  storage_after : storage
}.

(** [main].  The initialiser 456.789 is a [double] constant; stored in the
    [float] member it becomes the nearest binary32 value, whose pattern is
    0x43E464FE (see [sample_value_nearest]).  [read_s] is the record
    declared without initialiser: the argument holds its indeterminate
    contents.  The two buffers are the locals of the readers. *)
Definition main (st : storage) (read_s : MyStruct) (bytes_i bytes_f : uninit4)
  : main_result :=
  let s := mkMyStruct 123 (float_of_bits 0x43E464FE) in
  let st :=
    match fopen_data_wb st with
    | Some file =>
        let file := write_struct file s in
        fclose_data_wb file st
    | None => st
    end in
  let read_s :=
    match fopen_data_rb st with
    | Some file => fst (read_struct bytes_i bytes_f file read_s)
    | None => read_s
    end in
  mkResult (id read_s) (value read_s) 0 st.

(** ** Arithmetic of bytes and words *)

Lemma u8_range (b : uint8_t) : 0 <= u8 b < 256.
Proof.
  unfold u8. pose proof (Byte.to_N_bounded b). lia.
Qed.

(** Brings the range of every byte in the context into the hypotheses. *)
Ltac byte_bounds :=
  repeat match goal with
         | b : uint8_t |- _ =>
             lazymatch goal with
             | _ : 0 <= u8 b < 256 |- _ => fail
             | _ => pose proof (u8_range b)
             end
         end.

Lemma to_uint8_u8 (b : uint8_t) : to_uint8 (u8 b) = b.
Proof.
  unfold to_uint8. rewrite Z.mod_small by apply u8_range.
  unfold u8. rewrite N2Z.id, Byte.of_to_N. reflexivity.
Qed.

Lemma u8_to_uint8 (z : Z) : u8 (to_uint8 z) = z mod 256.
Proof.
  unfold to_uint8, u8.
  assert (Hr : 0 <= z mod 256 < 256) by (apply Z.mod_pos_bound; lia).
  destruct (Byte.of_N (Z.to_N (z mod 256))) as [b|] eqn:E.
  - apply Byte.to_of_N in E. rewrite E. lia.
  - apply Byte.of_N_None_iff in E. lia.
Qed.

Lemma to_uint8_inj (x y : Z) :
  to_uint8 x = to_uint8 y -> x mod 256 = y mod 256.
Proof.
  intros H. rewrite <- !u8_to_uint8. now rewrite H.
Qed.

(** The k-th 8-bit group of [v], as the source extracts it. *)
Lemma group_div (v k : Z) :
  0 <= k -> Z.land (Z.shiftr v k) 255 = (v / 2 ^ k) mod 256.
Proof.
  intros Hk. rewrite Z.shiftr_div_pow2 by assumption.
  change 255 with (Z.ones 8). rewrite Z.land_ones by lia. reflexivity.
Qed.

Lemma group_last (v : Z) : Z.land v 255 = v mod 256.
Proof.
  change 255 with (Z.ones 8). rewrite Z.land_ones by lia. reflexivity.
Qed.

(** An or of a multiple of 2^k with a k-bit number is their sum. *)
Lemma lor_disjoint (hi lo k : Z) :
  0 <= k -> 0 <= lo < 2 ^ k -> Z.lor (hi * 2 ^ k) lo = hi * 2 ^ k + lo.
Proof.
  intros Hk Hlo.
  rewrite <- Z.shiftl_mul_pow2 by assumption.
  assert (Hd : Z.land (Z.shiftl hi k) lo = 0).
  { apply Z.bits_inj'; intros n Hn.
    rewrite Z.land_spec, Z.bits_0.
    destruct (Z.lt_ge_cases n k) as [Hlt|Hge].
    - rewrite Z.shiftl_spec_low by assumption. reflexivity.
    - assert (Hlo' : Z.testbit lo n = false).
      { apply Z.testbit_false; [assumption|].
        rewrite Z.div_small; [reflexivity|].
        split; [lia|]. apply Z.lt_le_trans with (2 ^ k); [lia|].
        apply Z.pow_le_mono_r; lia. }
      rewrite Hlo', andb_false_r. reflexivity. }
  rewrite Z.add_nocarry_lxor by exact Hd.
  rewrite Z.lxor_lor by exact Hd. reflexivity.
Qed.

Lemma be32_range (b0 b1 b2 b3 : uint8_t) : uint32_range (be32 b0 b1 b2 b3).
Proof.
  unfold uint32_range, be32. byte_bounds. lia.
Qed.

(** The or-and-shift expression of the readers is the big-endian value. *)
Lemma assemble_be32 (b0 b1 b2 b3 : uint8_t) :
  assemble [b0; b1; b2; b3] = be32 b0 b1 b2 b3.
Proof.
  unfold assemble, idx, be32. cbn [nth]. byte_bounds.
  rewrite !Z.shiftl_mul_pow2 by lia.
  rewrite (lor_disjoint (u8 b0) (u8 b1 * 2 ^ 16) 24) by lia.
  replace (u8 b0 * 2 ^ 24 + u8 b1 * 2 ^ 16)
    with ((u8 b0 * 2 ^ 8 + u8 b1) * 2 ^ 16) by lia.
  rewrite (lor_disjoint _ (u8 b2 * 2 ^ 8) 16) by lia.
  replace ((u8 b0 * 2 ^ 8 + u8 b1) * 2 ^ 16 + u8 b2 * 2 ^ 8)
    with ((u8 b0 * 2 ^ 16 + u8 b1 * 2 ^ 8 + u8 b2) * 2 ^ 8) by lia.
  rewrite (lor_disjoint _ (u8 b3) 8) by lia. lia.
Qed.

Lemma to_int32_range (z : Z) : int32_range (to_int32 z).
Proof.
  unfold int32_range, to_int32.
  pose proof (Z.mod_pos_bound (z + 2 ^ 31) (2 ^ 32)). lia.
Qed.

Lemma to_int32_id (v : Z) : int32_range v -> to_int32 v = v.
Proof.
  unfold int32_range, to_int32. intros H.
  rewrite Z.mod_small by lia. lia.
Qed.

Lemma to_int32_mod (z : Z) : to_int32 z mod 2 ^ 32 = z mod 2 ^ 32.
Proof.
  unfold to_int32. Z.div_mod_to_equations. lia.
Qed.

(** Wrapping recovers a signed value from its residue modulo 2^32. *)
Lemma to_int32_residue (v : Z) :
  int32_range v -> to_int32 (v mod 2 ^ 32) = v.
Proof.
  unfold int32_range, to_int32. intros H. Z.div_mod_to_equations. lia.
Qed.

Lemma to_uint32_to_int32 (u : Z) :
  uint32_range u -> to_uint32 (to_int32 u) = u.
Proof.
  unfold uint32_range, to_uint32. intros H.
  rewrite to_int32_mod. apply Z.mod_small. assumption.
Qed.

(** The four groups the writers extract, put back in big-endian order, are
    the residue of the value modulo 2^32. *)
Lemma groups_be32 (v : Z) :
  be32 (to_uint8 (Z.land (Z.shiftr v 24) 255))
       (to_uint8 (Z.land (Z.shiftr v 16) 255))
       (to_uint8 (Z.land (Z.shiftr v 8) 255))
       (to_uint8 (Z.land v 255))
  = v mod 2 ^ 32.
Proof.
  unfold be32. rewrite !u8_to_uint8, !group_div, group_last by lia.
  rewrite !Z.mod_mod by lia.
  Z.div_mod_to_equations. lia.
Qed.

(** Each group of a word depends on the word modulo 2^32 only, and the
    groups of a big-endian value are its bytes. *)
Lemma group_be32 (z : Z) (b0 b1 b2 b3 : uint8_t) :
  z mod 2 ^ 32 = be32 b0 b1 b2 b3 ->
  to_uint8 (Z.land (Z.shiftr z 24) 255) = b0 /\
  to_uint8 (Z.land (Z.shiftr z 16) 255) = b1 /\
  to_uint8 (Z.land (Z.shiftr z 8) 255) = b2 /\
  to_uint8 (Z.land z 255) = b3.
Proof.
  intros Hz. unfold be32 in Hz. byte_bounds.
  rewrite !group_div, group_last by lia.
  repeat split;
    (etransitivity; [|apply to_uint8_u8]); f_equal;
    Z.div_mod_to_equations; lia.
Qed.

(** ** The routines as equations on streams *)

Lemma encode_int32_eq (v : Z) :
  encode_int32 v =
  [to_uint8 (Z.land (Z.shiftr v 24) 255); to_uint8 (Z.land (Z.shiftr v 16) 255);
   to_uint8 (Z.land (Z.shiftr v 8) 255); to_uint8 (Z.land v 255)].
Proof. reflexivity. Qed.

Lemma encode_float_eq (v : float) :
  encode_float v = encode_int32 (bits_of_float v).
Proof. reflexivity. Qed.

(** A read with the indicator clear and four bytes ahead of the
    position. *)
Lemma fread_full (j : uninit4) (file : FILE) (b0 b1 b2 b3 : uint8_t)
    (rest : list uint8_t) :
  eof file = false ->
  skipn (pos file) (contents file) = b0 :: b1 :: b2 :: b3 :: rest ->
  fread (array_of j) 4 1 file =
  ([b0; b1; b2; b3], 1%nat, mkFILE (contents file) (pos file + 4) (eof file)).
Proof.
  intros He H. unfold fread. rewrite He, H. reflexivity.
Qed.

Lemma read_int32_full (j : uninit4) (file : FILE) (b0 b1 b2 b3 : uint8_t)
    (rest : list uint8_t) :
  eof file = false ->
  skipn (pos file) (contents file) = b0 :: b1 :: b2 :: b3 :: rest ->
  read_int32 j file =
  (to_int32 (be32 b0 b1 b2 b3), mkFILE (contents file) (pos file + 4) (eof file)).
Proof.
  intros He H. unfold read_int32. rewrite (fread_full j file _ _ _ _ _ He H).
  rewrite assemble_be32. reflexivity.
Qed.

Lemma read_float_full (j : uninit4) (file : FILE) (b0 b1 b2 b3 : uint8_t)
    (rest : list uint8_t) :
  eof file = false ->
  skipn (pos file) (contents file) = b0 :: b1 :: b2 :: b3 :: rest ->
  read_float j file =
  (float_of_bits (be32 b0 b1 b2 b3),
   mkFILE (contents file) (pos file + 4) (eof file)).
Proof.
  intros He H. unfold read_float. rewrite (fread_full j file _ _ _ _ _ He H).
  rewrite assemble_be32, to_uint32_to_int32 by apply be32_range. reflexivity.
Qed.

(** ** Lists cut at a known length *)

Lemma firstn_app_exact {A : Type} (l1 l2 : list A) (n : nat) :
  n = length l1 -> firstn n (l1 ++ l2) = l1.
Proof.
  intros ->. induction l1 as [|a l1 IH]; cbn.
  - reflexivity.
  - now rewrite IH.
Qed.

Lemma skipn_app_plus {A : Type} (l1 l2 : list A) (k : nat) :
  skipn (length l1 + k) (l1 ++ l2) = skipn k l2.
Proof.
  induction l1 as [|a l1 IH]; cbn; [reflexivity | exact IH].
Qed.

Lemma skipn_plus {A : Type} (a b : nat) (l : list A) :
  skipn (a + b) l = skipn b (skipn a l).
Proof.
  rewrite skipn_skipn. f_equal. apply Nat.add_comm.
Qed.

Lemma skipn_length_firstn {A : Type} (n : nat) (l : list A) :
  skipn (length (firstn n l)) l = skipn n l.
Proof.
  rewrite length_firstn.
  destruct (Nat.le_gt_cases n (length l)) as [H|H].
  - now rewrite Nat.min_l.
  - rewrite Nat.min_r by lia. rewrite !skipn_all2; [reflexivity|lia|lia].
Qed.

Lemma length_firstn_ok {A : Type} (n : nat) (l : list A) :
  (n <= length l)%nat -> length (firstn n l) = n.
Proof.
  intros H. rewrite length_firstn. lia.
Qed.

(** ** Writing at a position *)

Lemma write_int32_put (file : FILE) (v : Z) :
  write_int32 file v = stream_put (encode_int32 v) file.
Proof. reflexivity. Qed.

Lemma write_float_put (file : FILE) (v : float) :
  write_float file v = stream_put (encode_float v) file.
Proof. reflexivity. Qed.

(** With the position within the contents there is no gap to fill. *)
Lemma stream_put_within (bs : list uint8_t) (file : FILE) :
  stream_ok file ->
  stream_put bs file
  = mkFILE (firstn (pos file) (contents file) ++ bs
              ++ skipn (pos file + length bs) (contents file))
           (pos file + length bs) (eof file).
Proof.
  unfold stream_ok, stream_put. intros H.
  replace (pos file - length (contents file))%nat with 0%nat by lia.
  reflexivity.
Qed.

Lemma stream_put_ok (bs : list uint8_t) (file : FILE) :
  stream_ok file -> stream_ok (stream_put bs file).
Proof.
  intros H. rewrite (stream_put_within bs file H).
  unfold stream_ok in *. cbn [contents pos].
  rewrite !length_app, length_firstn_ok by assumption. lia.
Qed.

(** Two writes in a row are one write of the concatenation. *)
Lemma stream_put_put (b1 b2 : list uint8_t) (file : FILE) :
  stream_ok file ->
  stream_put b2 (stream_put b1 file) = stream_put (b1 ++ b2) file.
Proof.
  intros H. pose proof (stream_put_ok b1 file H) as H1.
  rewrite (stream_put_within b2 _ H1), !(stream_put_within _ file H).
  unfold stream_ok in H. cbn [contents pos eof].
  set (c := contents file). set (p := pos file).
  assert (Hp : length (firstn p c) = p) by (apply length_firstn_ok; exact H).
  f_equal.
  - rewrite (app_assoc (firstn p c) b1).
    rewrite firstn_app_exact by (rewrite length_app; lia).
    replace (p + length b1 + length b2)%nat
      with (length (firstn p c ++ b1) + length b2)%nat
      by (rewrite length_app; lia).
    rewrite skipn_app_plus, <- skipn_plus, <- !app_assoc, length_app.
    do 3 f_equal. f_equal. lia.
  - rewrite length_app. lia.
Qed.

Lemma stream_put_emitted (bs : list uint8_t) (file : FILE) :
  stream_ok file -> emitted file (stream_put bs file) = bs.
Proof.
  intros H. rewrite (stream_put_within bs file H).
  unfold stream_ok in H. unfold emitted. cbn [contents pos].
  set (c := contents file). set (p := pos file).
  assert (Hp : length (firstn p c) = p) by (apply length_firstn_ok; exact H).
  replace p with (length (firstn p c) + 0)%nat at 3 by lia.
  rewrite skipn_app_plus. cbn.
  apply firstn_app_exact. lia.
Qed.

Lemma stream_put_before (bs : list uint8_t) (file : FILE) :
  stream_ok file ->
  firstn (pos file) (contents (stream_put bs file))
  = firstn (pos file) (contents file).
Proof.
  intros H. rewrite (stream_put_within bs file H).
  unfold stream_ok in H. cbn [contents].
  apply firstn_app_exact. symmetry. apply length_firstn_ok. exact H.
Qed.

Lemma stream_put_available (bs : list uint8_t) (file : FILE) :
  stream_ok file ->
  available (stream_put bs file)
  = skipn (pos file + length bs) (contents file).
Proof.
  intros H. rewrite (stream_put_within bs file H).
  unfold stream_ok in H. unfold available. cbn [contents pos].
  set (c := contents file). set (p := pos file).
  assert (Hp : length (firstn p c) = p) by (apply length_firstn_ok; exact H).
  rewrite (app_assoc (firstn p c) bs).
  replace (p + length bs)%nat
    with (length (firstn p c ++ bs) + 0)%nat at 1
    by (rewrite length_app; lia).
  rewrite skipn_app_plus. reflexivity.
Qed.

Lemma write_struct_put (file : FILE) (s : MyStruct) :
  stream_ok file ->
  write_struct file s
  = stream_put (encode_int32 (id s) ++ encode_float (value s)) file.
Proof.
  intros H. unfold write_struct.
  rewrite write_int32_put, write_float_put. apply stream_put_put. exact H.
Qed.

Lemma encode_record_eq (s : MyStruct) :
  encode_record s = encode_int32 (id s) ++ encode_float (value s).
Proof. reflexivity. Qed.

(** ** Reading at a position *)

Lemma readable_length (file : FILE) :
  (length (readable file) <= length (available file))%nat.
Proof.
  unfold readable. destruct (eof file); cbn [length]; lia.
Qed.

(** The one call of [fread] the readers make, on any stream. *)
Lemma fread_any (j : uninit4) (file : FILE) :
  let got := firstn 4 (readable file) in
  fread (array_of j) 4 1 file =
  (got ++ skipn (length got) (array_of j),
   (length got / 4)%nat,
   mkFILE (contents file) (pos file + length got)
          (eof file || (length got <? 4)%nat)).
Proof.
  unfold fread, readable, available. destruct file as [c p e].
  cbn [contents pos eof]. destruct e.
  - cbn. rewrite Nat.add_0_r. reflexivity.
  - reflexivity.
Qed.

Lemma read_int32_any (j : uninit4) (file : FILE) :
  let got := firstn 4 (readable file) in
  read_int32 j file =
  (to_int32 (assemble (got ++ skipn (length got) (array_of j))),
   mkFILE (contents file) (pos file + length got)
          (eof file || (length got <? 4)%nat)).
Proof.
  pose proof (fread_any j file) as E. cbv zeta in *.
  unfold read_int32. rewrite E. reflexivity.
Qed.

Lemma read_float_any (j : uninit4) (file : FILE) :
  let got := firstn 4 (readable file) in
  read_float j file =
  (float_of_bits (to_uint32 (to_int32 (assemble (got ++ skipn (length got) (array_of j))))),
   mkFILE (contents file) (pos file + length got)
          (eof file || (length got <? 4)%nat)).
Proof.
  pose proof (fread_any j file) as E. cbv zeta in *.
  unfold read_float. rewrite E. reflexivity.
Qed.

(** What a read can still take after a primitive read. *)
Lemma readable_after_read (file : FILE) :
  let got := firstn 4 (readable file) in
  readable (mkFILE (contents file) (pos file + length got)
                   (eof file || (length got <? 4)%nat))
  = skipn 4 (readable file).
Proof.
  unfold readable. cbn [eof]. destruct (eof file); cbn [orb].
  - reflexivity.
  - destruct (Nat.ltb_spec (length (firstn 4 (available file))) 4) as [H|H];
      rewrite length_firstn in H.
    + rewrite skipn_all2 by lia. reflexivity.
    + unfold available. cbn [contents pos].
      rewrite skipn_plus. apply skipn_length_firstn.
Qed.

(** * The claims *)

(** C1. Round trip of integers: for every 32-bit signed integer [v], reading
    back with [read_int32] the four bytes [write_int32] produced for [v]
    returns [v], whatever the local buffer held before the read. *)
Theorem int32_roundtrip (j : uninit4) (v : Z) :
  int32_range v -> decode_int32 j (encode_int32 v) = v.
Proof.
  intros Hv. unfold decode_int32.
  rewrite encode_int32_eq.
  erewrite read_int32_full by reflexivity.
  cbn [fst]. rewrite groups_be32. apply to_int32_residue. exact Hv.
Qed.

Lemma int32_roundtrip_witness :
  int32_range (-123456789) /\
  decode_int32 zeroed (encode_int32 (-123456789)) = -123456789.
Proof.
  split.
  - unfold int32_range. lia.
  - apply (int32_roundtrip zeroed (-123456789)). unfold int32_range. lia.
Defined.

(** C2. Round trip of floats: for every binary32 bit pattern [v] (NaN
    payloads, signed zeros and infinities are patterns like any other),
    the pattern of the float [read_float] returns on the four bytes
    [write_float] produced for [v] is the pattern of [v], bit for bit. *)
Theorem float_roundtrip (j : uninit4) (v : float) :
  binary32_pattern v ->
  bits_of_float (decode_float j (encode_float v)) = bits_of_float v.
Proof.
  intros Hv. unfold decode_float.
  rewrite encode_float_eq, encode_int32_eq.
  erewrite read_float_full by reflexivity.
  cbn [fst bits_of_float]. rewrite groups_be32.
  apply Z.mod_small. exact Hv.
Qed.

(** A quiet NaN with a payload: sign 1, exponent all ones, mantissa
    0x400001. *)
Lemma float_roundtrip_witness :
  binary32_pattern (float_of_bits 0xFFC00001) /\
  bits_of_float (decode_float zeroed (encode_float (float_of_bits 0xFFC00001)))
  = 0xFFC00001.
Proof.
  split.
  - unfold binary32_pattern, uint32_range. cbn [bits_of_float]. lia.
  - apply (float_roundtrip zeroed (float_of_bits 0xFFC00001)).
    unfold binary32_pattern, uint32_range. cbn [bits_of_float]. lia.
Defined.

Lemma read_struct_full (j1 j2 : uninit4) (file : FILE) (s : MyStruct)
    (b0 b1 b2 b3 b4 b5 b6 b7 : uint8_t) (rest : list uint8_t) :
  eof file = false ->
  available file = b0 :: b1 :: b2 :: b3 :: b4 :: b5 :: b6 :: b7 :: rest ->
  read_struct j1 j2 file s =
  (mkMyStruct (to_int32 (be32 b0 b1 b2 b3)) (float_of_bits (be32 b4 b5 b6 b7)),
   mkFILE (contents file) (pos file + 8) (eof file)).
Proof.
  unfold available. intros He H. unfold read_struct.
  rewrite (read_int32_full j1 file _ _ _ _ _ He H).
  rewrite (read_float_full j2 _ b4 b5 b6 b7 rest)
    by (cbn [contents pos eof];
        first [exact He | rewrite skipn_plus, H; reflexivity]).
  cbn [contents pos eof id]. rewrite <- Nat.add_assoc. reflexivity.
Qed.

Lemma high_bit_set (b : uint8_t) : Z.testbit (u8 b) 7 = true <-> 128 <= u8 b.
Proof.
  pose proof (u8_range b) as Hb.
  rewrite Z.testbit_true by lia.
  split; intros H; Z.div_mod_to_equations; lia.
Qed.

(** C6. The integer codec is a bijection between the 32-bit integers and the
    sequences of four bytes: on every sequence [b] of four bytes
    [read_int32] returns a 32-bit integer whose encoding is [b] again; the
    encoding is injective on the 32-bit integers; and it is defined on every
    value, with four bytes as its result. *)
Theorem int32_codec_bijection :
  (forall (j : uninit4) (b : list uint8_t),
      length b = 4%nat ->
      int32_range (decode_int32 j b) /\ encode_int32 (decode_int32 j b) = b) /\
  (forall v w : Z,
      int32_range v -> int32_range w ->
      encode_int32 v = encode_int32 w -> v = w) /\
  (forall v : Z, length (encode_int32 v) = 4%nat).
Proof.
  split; [|split].
  - intros j b Hb.
    destruct b as [|b0 [|b1 [|b2 [|b3 [|b4 b]]]]]; try discriminate Hb.
    unfold decode_int32. erewrite read_int32_full by reflexivity.
    cbn [fst]. split; [apply to_int32_range|].
    rewrite encode_int32_eq.
    destruct (group_be32 (to_int32 (be32 b0 b1 b2 b3)) b0 b1 b2 b3)
      as (-> & -> & -> & ->); [|reflexivity].
    rewrite to_int32_mod. apply Z.mod_small. apply be32_range.
  - intros v w Hv Hw H.
    rewrite <- (to_int32_residue v Hv), <- (to_int32_residue w Hw).
    rewrite <- (groups_be32 v), <- (groups_be32 w).
    rewrite !encode_int32_eq in H. injection H as -> -> -> ->. reflexivity.
  - intros v. reflexivity.
Qed.

Lemma int32_codec_bijection_witness :
  length [Byte.xff; Byte.x00; Byte.x12; Byte.x80] = 4%nat /\
  encode_int32 (decode_int32 zeroed [Byte.xff; Byte.x00; Byte.x12; Byte.x80])
  = [Byte.xff; Byte.x00; Byte.x12; Byte.x80].
Proof.
  split; [reflexivity|].
  apply (proj1 int32_codec_bijection zeroed). reflexivity.
Defined.

(** C7. Byte order: [write_int32] produces 00 00 00 01 for 1 and
    FF FF FF FF for -1, most significant byte first. *)
Theorem encode_int32_one_minus_one :
  encode_int32 1 = [Byte.x00; Byte.x00; Byte.x00; Byte.x01] /\
  encode_int32 (-1) = [Byte.xff; Byte.xff; Byte.xff; Byte.xff].
Proof.
  split; vm_compute; reflexivity.
Qed.

(** C9. Sign: on four bytes whose first byte has its high bit set,
    [read_int32] returns the two's-complement reading of the big-endian
    pattern, that is the unsigned reading less 2^32, a negative number. *)
Theorem read_int32_negative (j : uninit4) (b0 b1 b2 b3 : uint8_t) :
  Z.testbit (u8 b0) 7 = true ->
  decode_int32 j [b0; b1; b2; b3] = be32 b0 b1 b2 b3 - 2 ^ 32 /\
  decode_int32 j [b0; b1; b2; b3] < 0.
Proof.
  intros H. apply high_bit_set in H.
  unfold decode_int32. erewrite read_int32_full by reflexivity. cbn [fst].
  byte_bounds. unfold to_int32, be32 in *.
  split; Z.div_mod_to_equations; lia.
Qed.

Lemma read_int32_negative_witness :
  Z.testbit (u8 Byte.x80) 7 = true /\
  decode_int32 zeroed [Byte.x80; Byte.x00; Byte.x00; Byte.x01] = - 2147483647.
Proof.
  split; [reflexivity|].
  destruct (read_int32_negative zeroed Byte.x80 Byte.x00 Byte.x00 Byte.x01
              eq_refl) as [E _].
  etransitivity; [exact E | reflexivity].
Defined.

(** C3, as the code has it.  On a stream with fewer than four bytes ahead,
    [read_int32] and [read_float] report nothing: each returns an ordinary
    value, assembled from the bytes it read followed by what the local
    buffer held before in the remaining places.  With the end-of-file
    indicator clear the bytes read are all the bytes ahead, and they are
    consumed; with the indicator already set nothing is read, so the value
    is that of the buffer and the position stays.  Either way the
    indicator is set afterwards. *)
Theorem truncated_read_returns (j : uninit4) (file : FILE) :
  (length (available file) < 4)%nat ->
  let got := readable file in
  let bytes := got ++ skipn (length got) (array_of j) in
  let file' := mkFILE (contents file) (pos file + length got) true in
  length bytes = 4%nat /\
  read_int32 j file = (to_int32 (assemble bytes), file') /\
  read_float j file
  = (float_of_bits (to_uint32 (to_int32 (assemble bytes))), file').
Proof.
  intros H got bytes file'. subst got bytes file'.
  pose proof (readable_length file) as Hr.
  pose proof (read_int32_any j file) as Ei.
  pose proof (read_float_any j file) as Ef. cbv zeta in Ei, Ef.
  rewrite firstn_all2 in Ei, Ef by lia.
  assert (Hlt : (length (readable file) <? 4)%nat = true)
    by (apply Nat.ltb_lt; lia).
  rewrite Hlt, orb_true_r in Ei, Ef.
  split; [|split; assumption].
  rewrite length_app, length_skipn. cbn [array_of length]. lia.
Qed.

Lemma truncated_read_returns_witness :
  (length (available (fopen_rb [Byte.x12; Byte.x34])) < 4)%nat /\
  read_int32 (mk_uninit4 Byte.xaa Byte.xbb Byte.xcc Byte.xdd)
             (fopen_rb [Byte.x12; Byte.x34])
  = (0x1234ccdd, mkFILE [Byte.x12; Byte.x34] 2 true).
Proof.
  split; [cbn; lia|].
  destruct (truncated_read_returns
              (mk_uninit4 Byte.xaa Byte.xbb Byte.xcc Byte.xdd)
              (fopen_rb [Byte.x12; Byte.x34])) as (_ & E & _); [cbn; lia|].
  etransitivity; [exact E | reflexivity].
Defined.

(** C3, as stated, fails.  On the empty source the specified outcome is
    Truncated Input, while [read_int32] and [read_float] return the value
    of the untouched buffer (zero when it held zeros); on a source of one
    byte they return that byte completed by the buffer. *)
Lemma truncated_read_unreported :
  (length (@nil uint8_t) < 4)%nat /\
  spec_decode_int32 [] = Truncated_Input /\
  spec_decode_float [] = Truncated_Input /\
  read_int32 zeroed (fopen_rb []) = (0, mkFILE [] 0 true) /\
  read_float zeroed (fopen_rb []) = (float_of_bits 0, mkFILE [] 0 true) /\
  ~ realises (decode_int32 zeroed []) (spec_decode_int32 []) /\
  ~ realises (decode_float zeroed []) (spec_decode_float []) /\
  read_int32 zeroed (fopen_rb [Byte.x12])
  = (0x12000000, mkFILE [Byte.x12] 1 true) /\
  ~ realises (decode_int32 zeroed [Byte.x12]) (spec_decode_int32 [Byte.x12]).
Proof.
  unfold realises. cbn [spec_decode_int32 spec_decode_float].
  repeat split; try reflexivity; try discriminate.
  cbn; lia.
Qed.

(** C5, as the code has it.  [read_struct] never fails and reports nothing:
    on every stream it returns a record with both fields assigned, [id] by
    [read_int32] and [value] by [read_float] on the stream [read_int32]
    left.  With the end-of-file indicator clear it consumes the first
    eight bytes ahead, or all of them when there are fewer, and the
    indicator is set exactly when there were fewer than eight; with the
    indicator already set it reads nothing and the position stays.  Each
    field is assembled from the bytes read for it, completed by the
    earlier contents of the local buffer where bytes are missing. *)
Theorem read_struct_total (j1 j2 : uninit4) (file : FILE) (s : MyStruct) :
  let got_i := firstn 4 (readable file) in
  let got_f := firstn 4 (skipn 4 (readable file)) in
  exists (r : MyStruct) (file' : FILE),
    read_struct j1 j2 file s = (r, file') /\
    r = mkMyStruct (fst (read_int32 j1 file))
                   (fst (read_float j2 (snd (read_int32 j1 file)))) /\
    id r = to_int32 (assemble (got_i ++ skipn (length got_i) (array_of j1))) /\
    value r = float_of_bits (to_uint32 (to_int32
                (assemble (got_f ++ skipn (length got_f) (array_of j2))))) /\
    contents file' = contents file /\
    pos file' = (pos file + Nat.min 8 (length (readable file)))%nat /\
    eof file' = eof file || (length (readable file) <? 8)%nat.
Proof.
  intros got_i got_f. subst got_i got_f.
  exists (mkMyStruct (fst (read_int32 j1 file))
                     (fst (read_float j2 (snd (read_int32 j1 file))))).
  exists (snd (read_float j2 (snd (read_int32 j1 file)))).
  split.
  { unfold read_struct. destruct (read_int32 j1 file) as [i file1].
    cbn [fst snd]. destruct (read_float j2 file1) as [v file2]. reflexivity. }
  split; [reflexivity|].
  pose proof (read_int32_any j1 file) as Ei. cbv zeta in Ei. rewrite Ei.
  cbn [fst snd]. set (file1 := mkFILE _ _ _) in *.
  pose proof (read_float_any j2 file1) as Ef. cbv zeta in Ef.
  assert (Ha : readable file1 = skipn 4 (readable file))
    by apply readable_after_read.
  rewrite Ha in Ef. rewrite Ef.
  cbn [fst snd id value contents pos eof].
  subst file1. cbn [pos eof].
  repeat split.
  - rewrite !length_firstn, length_skipn. lia.
  - rewrite !length_firstn, length_skipn.
    destruct (eof file); cbn [orb].
    + reflexivity.
    + destruct (Nat.ltb_spec (length (readable file)) 8);
        destruct (Nat.ltb_spec (Nat.min 4 (length (readable file))) 4);
        destruct (Nat.ltb_spec (Nat.min 4 (length (readable file) - 4)) 4);
        cbn [orb]; try reflexivity; lia.
Qed.

(** C5, as stated, fails.  On a source of four bytes the specified record
    decode is Truncated Input, while [read_struct] returns a record: its
    [id], 123, is decoded from the source and its [value] is whatever the
    local buffer of [read_float] held, here the pattern of 1.0. *)
Lemma read_struct_half_decoded :
  let src := [Byte.x00; Byte.x00; Byte.x00; Byte.x7b] in
  let j2 := mk_uninit4 Byte.x3f Byte.x80 Byte.x00 Byte.x00 in
  let s0 := mkMyStruct 0 (float_of_bits 0) in
  spec_decode_record src = Truncated_Input /\
  spec_decode_int32 src = Decoded 123 /\
  read_struct zeroed j2 (fopen_rb src) s0
  = (mkMyStruct 123 (float_of_bits 0x3F800000), mkFILE src 4 true) /\
  ~ realises (decode_record zeroed j2 src s0) (spec_decode_record src).
Proof.
  cbv zeta. unfold realises. repeat split; try reflexivity.
  cbn [spec_decode_record spec_decode_int32 spec_decode_float skipn].
  discriminate.
Qed.

(** C10. Frame of the record decode: with the end-of-file indicator clear
    and at least eight bytes ahead, [read_struct] returns the record made
    of the first four (as a signed integer) and the next four (as a float
    pattern), whatever follows them,
    whatever the local buffers held and whatever the record held before; it
    advances the position by eight, leaves the contents and the end-of-file
    indicator as they were, and what lies after those eight bytes is still
    ahead of the position. *)
Theorem read_struct_frame (j1 j2 : uninit4) (file : FILE) (s : MyStruct)
    (b0 b1 b2 b3 b4 b5 b6 b7 : uint8_t) (rest : list uint8_t) :
  eof file = false ->
  available file = b0 :: b1 :: b2 :: b3 :: b4 :: b5 :: b6 :: b7 :: rest ->
  let file' := mkFILE (contents file) (pos file + 8) (eof file) in
  read_struct j1 j2 file s =
  (mkMyStruct (to_int32 (be32 b0 b1 b2 b3)) (float_of_bits (be32 b4 b5 b6 b7)),
   file') /\
  available file' = rest.
Proof.
  intros He H file'. subst file'. split.
  - apply read_struct_full with (rest := rest); assumption.
  - unfold available in *. cbn [contents pos].
    rewrite skipn_plus, H. reflexivity.
Qed.

Lemma read_struct_frame_witness :
  let src := [Byte.x00; Byte.x00; Byte.x00; Byte.x7b;
              Byte.x43; Byte.xe4; Byte.x64; Byte.xfe;
              Byte.xde; Byte.xad] in
  eof (fopen_rb src) = false /\
  available (fopen_rb src)
  = Byte.x00 :: Byte.x00 :: Byte.x00 :: Byte.x7b ::
    Byte.x43 :: Byte.xe4 :: Byte.x64 :: Byte.xfe :: [Byte.xde; Byte.xad] /\
  read_struct zeroed zeroed (fopen_rb src) (mkMyStruct 0 (float_of_bits 0))
  = (mkMyStruct 123 (float_of_bits 0x43E464FE), mkFILE src 8 false) /\
  available (mkFILE src 8 false) = [Byte.xde; Byte.xad].
Proof.
  cbv zeta. split; [reflexivity|]. split; [reflexivity|].
  destruct (read_struct_frame zeroed zeroed
              (fopen_rb [Byte.x00; Byte.x00; Byte.x00; Byte.x7b;
                         Byte.x43; Byte.xe4; Byte.x64; Byte.xfe;
                         Byte.xde; Byte.xad])
              (mkMyStruct 0 (float_of_bits 0))
              Byte.x00 Byte.x00 Byte.x00 Byte.x7b
              Byte.x43 Byte.xe4 Byte.x64 Byte.xfe [Byte.xde; Byte.xad]
              eq_refl eq_refl) as [E1 E2].
  split; [etransitivity; [exact E1 | reflexivity] | exact E2].
Defined.

Lemma value_eta (v : float) : float_of_bits (bits_of_float v) = v.
Proof. destruct v. reflexivity. Qed.

(** C4. Record layout: the bytes [write_struct] produces are those of
    [write_int32] for [id] followed by those of [write_float] for [value];
    on these bytes [read_int32] returns [id] from the first four and leaves
    the stream at the fifth, [read_float] continues there and returns
    [value], and [read_struct], which calls them in this order, returns the
    record itself, whatever the record behind the pointer held before. *)
Theorem record_layout (j1 j2 : uninit4) (s s0 : MyStruct) :
  int32_range (id s) -> binary32_pattern (value s) ->
  let bytes := encode_record s in
  bytes = encode_int32 (id s) ++ encode_float (value s) /\
  read_int32 j1 (fopen_rb bytes) = (id s, mkFILE bytes 4 false) /\
  read_float j2 (mkFILE bytes 4 false) = (value s, mkFILE bytes 8 false) /\
  read_struct j1 j2 (fopen_rb bytes) s0 = (s, mkFILE bytes 8 false).
Proof.
  intros Hi Hv bytes. subst bytes.
  assert (Ei : to_int32 (be32 (to_uint8 (Z.land (Z.shiftr (id s) 24) 255))
                              (to_uint8 (Z.land (Z.shiftr (id s) 16) 255))
                              (to_uint8 (Z.land (Z.shiftr (id s) 8) 255))
                              (to_uint8 (Z.land (id s) 255))) = id s)
    by (rewrite groups_be32; apply to_int32_residue; exact Hi).
  assert (Ev : float_of_bits
                 (be32 (to_uint8 (Z.land (Z.shiftr (bits_of_float (value s)) 24) 255))
                       (to_uint8 (Z.land (Z.shiftr (bits_of_float (value s)) 16) 255))
                       (to_uint8 (Z.land (Z.shiftr (bits_of_float (value s)) 8) 255))
                       (to_uint8 (Z.land (bits_of_float (value s)) 255)))
               = value s)
    by (rewrite groups_be32, Z.mod_small by exact Hv; apply value_eta).
  split; [apply encode_record_eq|].
  rewrite encode_record_eq, encode_float_eq, !encode_int32_eq.
  cbn [app].
  split; [|split].
  - erewrite read_int32_full by reflexivity. rewrite Ei. reflexivity.
  - erewrite read_float_full by reflexivity. rewrite Ev. reflexivity.
  - erewrite read_struct_full by reflexivity. rewrite Ei, Ev.
    destruct s. reflexivity.
Qed.

(** The record of the sample program: 123 and 456.789, whose nearest
    binary32 value has the pattern 0x43E464FE. *)
Lemma record_layout_witness :
  let s := mkMyStruct 123 (float_of_bits 0x43E464FE) in
  int32_range (id s) /\ binary32_pattern (value s) /\
  encode_record s = [Byte.x00; Byte.x00; Byte.x00; Byte.x7b;
                     Byte.x43; Byte.xe4; Byte.x64; Byte.xfe] /\
  read_struct zeroed zeroed (fopen_rb (encode_record s))
              (mkMyStruct 0 (float_of_bits 0))
  = (s, mkFILE (encode_record s) 8 false).
Proof.
  cbv zeta.
  assert (Hi : int32_range (id (mkMyStruct 123 (float_of_bits 0x43E464FE))))
    by (unfold int32_range; cbn [id]; lia).
  assert (Hv : binary32_pattern
                 (value (mkMyStruct 123 (float_of_bits 0x43E464FE))))
    by (unfold binary32_pattern, uint32_range; cbn [value bits_of_float]; lia).
  split; [exact Hi|]. split; [exact Hv|]. split; [vm_compute; reflexivity|].
  exact (proj2 (proj2 (proj2
    (record_layout zeroed zeroed (mkMyStruct 123 (float_of_bits 0x43E464FE))
                   (mkMyStruct 0 (float_of_bits 0)) Hi Hv)))).
Defined.

(** C8. Fixed length: on every stream whose position is within its
    contents, [write_int32] and [write_float] put exactly the four bytes of
    the encoding at the position and advance it by four, [write_struct]
    puts exactly the eight bytes of the two encodings and advances it by
    eight; what was before the position is unchanged, and what was beyond
    the bytes put is unchanged and now ahead of the position. *)
Theorem fixed_length (file : FILE) (v : Z) (x : float) (s : MyStruct) :
  stream_ok file ->
  (emitted file (write_int32 file v) = encode_int32 v /\
   length (encode_int32 v) = 4%nat /\
   pos (write_int32 file v) = (pos file + 4)%nat /\
   firstn (pos file) (contents (write_int32 file v))
   = firstn (pos file) (contents file) /\
   available (write_int32 file v) = skipn (pos file + 4) (contents file)) /\
  (emitted file (write_float file x) = encode_float x /\
   length (encode_float x) = 4%nat /\
   pos (write_float file x) = (pos file + 4)%nat /\
   firstn (pos file) (contents (write_float file x))
   = firstn (pos file) (contents file) /\
   available (write_float file x) = skipn (pos file + 4) (contents file)) /\
  (emitted file (write_struct file s) = encode_record s /\
   length (encode_record s) = 8%nat /\
   pos (write_struct file s) = (pos file + 8)%nat /\
   firstn (pos file) (contents (write_struct file s))
   = firstn (pos file) (contents file) /\
   available (write_struct file s) = skipn (pos file + 8) (contents file)).
Proof.
  intros H.
  rewrite write_int32_put, write_float_put, (write_struct_put file s H).
  rewrite <- encode_record_eq.
  rewrite !stream_put_emitted, !stream_put_before, !stream_put_available
    by exact H.
  repeat split.
Qed.

Lemma fixed_length_witness :
  stream_ok fopen_wb /\
  length (fclose (write_struct (write_int32 fopen_wb 7)
                               (mkMyStruct 123 (float_of_bits 0x43E464FE))))
  = 12%nat /\
  emitted (write_int32 fopen_wb 7)
          (write_struct (write_int32 fopen_wb 7)
                        (mkMyStruct 123 (float_of_bits 0x43E464FE)))
  = encode_record (mkMyStruct 123 (float_of_bits 0x43E464FE)).
Proof.
  assert (H0 : stream_ok fopen_wb) by (unfold stream_ok; cbn; lia).
  assert (H1 : stream_ok (write_int32 fopen_wb 7))
    by (unfold stream_ok; cbn; lia).
  split; [exact H0|]. split; [reflexivity|].
  exact (proj1 (proj2 (proj2
    (fixed_length (write_int32 fopen_wb 7) 0 (float_of_bits 0)
                  (mkMyStruct 123 (float_of_bits 0x43E464FE)) H1)))).
Defined.

(** * Further properties of the codec *)

(** The pattern 0x43E464FE has sign 0, biased exponent 135 and mantissa
    0x6464FE, so its value is (2^23 + 0x6464FE) / 2^15; it lies within half
    a unit in the last place, 2^-16, of 456.789. *)
Lemma sample_value_nearest :
  Z.shiftr 0x43E464FE 23 = 135 /\
  Z.land 0x43E464FE (2 ^ 23 - 1) = 0x6464FE /\
  2 * Z.abs (1000 * (2 ^ 23 + 0x6464FE) - 456789 * 2 ^ 15) <= 1000.
Proof.
  repeat split; vm_compute; congruence.
Qed.

Lemma read_struct_snd (j1 j2 : uninit4) (file : FILE) (s : MyStruct) :
  read_struct j1 j2 file s
  = (mkMyStruct (fst (read_int32 j1 file))
                (fst (read_float j2 (snd (read_int32 j1 file)))),
     snd (read_float j2 (snd (read_int32 j1 file)))).
Proof.
  unfold read_struct. destruct (read_int32 j1 file) as [i file1].
  cbn [fst snd]. destruct (read_float j2 file1) as [v file2]. reflexivity.
Qed.

(** What is ahead after stepping back over bytes just put. *)
Lemma stream_put_seek_available (bs : list uint8_t) (file : FILE) :
  stream_ok file ->
  available (seek (pos file) (stream_put bs file))
  = bs ++ skipn (pos file + length bs) (contents file).
Proof.
  intros H. rewrite (stream_put_within bs file H).
  unfold stream_ok in H. unfold seek, available. cbn [contents pos].
  replace (pos file)
    with (length (firstn (pos file) (contents file)) + 0)%nat
    at 1 by (rewrite length_firstn_ok by exact H; lia).
  rewrite skipn_app_plus. reflexivity.
Qed.

(** X1. Wire format of an integer: the four bytes [write_int32] produces
    for a 32-bit integer [v], read as a base-256 number with the first byte
    most significant, are [v] itself when [v] is not negative and
    [v + 2^32] when it is. *)
Theorem encode_int32_big_endian (v : Z) :
  int32_range v ->
  exists b0 b1 b2 b3 : uint8_t,
    encode_int32 v = [b0; b1; b2; b3] /\
    be32 b0 b1 b2 b3 = if v <? 0 then v + 2 ^ 32 else v.
Proof.
  unfold int32_range. intros Hv.
  do 4 eexists. split; [apply encode_int32_eq|].
  rewrite groups_be32.
  destruct (Z.ltb_spec v 0); Z.div_mod_to_equations; lia.
Qed.

Lemma encode_int32_big_endian_witness :
  int32_range (-2) /\
  exists b0 b1 b2 b3 : uint8_t,
    encode_int32 (-2) = [b0; b1; b2; b3] /\
    be32 b0 b1 b2 b3 = 4294967294.
Proof.
  split; [unfold int32_range; lia|].
  apply (encode_int32_big_endian (-2)). unfold int32_range. lia.
Defined.

(** X2. Value of an integer read: with four bytes ahead, whatever follows
    them and whatever the local buffer held, [read_int32] returns their
    big-endian value when the first byte is below 128 and that value less
    2^32 otherwise. *)
Theorem decode_int32_value (j : uninit4) (b0 b1 b2 b3 : uint8_t)
    (rest : list uint8_t) :
  decode_int32 j (b0 :: b1 :: b2 :: b3 :: rest)
  = if u8 b0 <? 128 then be32 b0 b1 b2 b3 else be32 b0 b1 b2 b3 - 2 ^ 32.
Proof.
  unfold decode_int32. erewrite read_int32_full by reflexivity. cbn [fst].
  byte_bounds. unfold to_int32, be32.
  destruct (Z.ltb_spec (u8 b0) 128); Z.div_mod_to_equations; lia.
Qed.

(** X3. The float codec is a bijection between the binary32 patterns and the
    sequences of four bytes: on every sequence [b] of four bytes
    [read_float] returns a float with a 32-bit pattern whose encoding is [b]
    again, and two floats with 32-bit patterns and the same encoding are
    the same float. *)
Theorem float_codec_bijection :
  (forall (j : uninit4) (b : list uint8_t),
      length b = 4%nat ->
      binary32_pattern (decode_float j b) /\
      encode_float (decode_float j b) = b) /\
  (forall v w : float,
      binary32_pattern v -> binary32_pattern w ->
      encode_float v = encode_float w -> v = w).
Proof.
  split.
  - intros j b Hb.
    destruct b as [|b0 [|b1 [|b2 [|b3 [|b4 b]]]]]; try discriminate Hb.
    unfold decode_float. erewrite read_float_full by reflexivity.
    cbn [fst]. split; [apply be32_range|].
    rewrite encode_float_eq, encode_int32_eq. cbn [bits_of_float].
    destruct (group_be32 (be32 b0 b1 b2 b3) b0 b1 b2 b3)
      as (-> & -> & -> & ->); [|reflexivity].
    apply Z.mod_small. apply be32_range.
  - intros [v] [w]. unfold binary32_pattern, uint32_range.
    cbn [bits_of_float]. intros Hv Hw H. f_equal.
    rewrite <- (Z.mod_small v (2 ^ 32)), <- (Z.mod_small w (2 ^ 32))
      by assumption.
    rewrite <- (groups_be32 v), <- (groups_be32 w).
    rewrite !encode_float_eq, !encode_int32_eq in H. cbn [bits_of_float] in H.
    injection H as -> -> -> ->. reflexivity.
Qed.

(** Minus zero: sign bit alone. *)
Lemma float_codec_bijection_witness :
  length [Byte.x80; Byte.x00; Byte.x00; Byte.x00] = 4%nat /\
  encode_float (decode_float zeroed [Byte.x80; Byte.x00; Byte.x00; Byte.x00])
  = [Byte.x80; Byte.x00; Byte.x00; Byte.x00].
Proof.
  split; [reflexivity|].
  apply (proj1 float_codec_bijection zeroed). reflexivity.
Defined.

(** X4. Decoding then encoding a record: the record [read_struct] returns
    on eight bytes, whatever follows them, has a 32-bit [id] and a 32-bit
    pattern as [value], and [write_struct] turns it back into those eight
    bytes. *)
Theorem record_reencode (j1 j2 : uninit4) (s0 : MyStruct)
    (b0 b1 b2 b3 b4 b5 b6 b7 : uint8_t) (rest : list uint8_t) :
  let r :=
    decode_record j1 j2
      (b0 :: b1 :: b2 :: b3 :: b4 :: b5 :: b6 :: b7 :: rest) s0 in
  int32_range (id r) /\ binary32_pattern (value r) /\
  encode_record r = [b0; b1; b2; b3; b4; b5; b6; b7].
Proof.
  intros r. subst r. unfold decode_record.
  erewrite read_struct_full by reflexivity. cbn [fst id value].
  split; [apply to_int32_range|]. split; [apply be32_range|].
  rewrite encode_record_eq, encode_float_eq, !encode_int32_eq.
  cbn [id value bits_of_float].
  destruct (group_be32 (to_int32 (be32 b0 b1 b2 b3)) b0 b1 b2 b3)
    as (-> & -> & -> & ->);
    [rewrite to_int32_mod; apply Z.mod_small; apply be32_range|].
  destruct (group_be32 (be32 b4 b5 b6 b7) b4 b5 b6 b7)
    as (-> & -> & -> & ->);
    [apply Z.mod_small; apply be32_range|].
  reflexivity.
Qed.

(** X5. Round trip in place: on a stream whose position is within its
    contents and whose end-of-file indicator is clear, stepping back over
    what [write_int32] (or [write_float]) put and reading there with
    [read_int32] (or [read_float]) returns the value written and leaves the
    stream exactly as the write left it. *)
Theorem primitive_roundtrip_in_place (j : uninit4) (file : FILE) (v : Z)
    (x : float) :
  stream_ok file -> eof file = false ->
  int32_range v -> binary32_pattern x ->
  read_int32 j (seek (pos file) (write_int32 file v))
  = (v, write_int32 file v) /\
  read_float j (seek (pos file) (write_float file x))
  = (x, write_float file x).
Proof.
  intros Hok He Hv Hx. split.
  - rewrite write_int32_put.
    erewrite read_int32_full;
      [ | reflexivity
        | etransitivity; [apply (stream_put_seek_available _ _ Hok)|];
          rewrite encode_int32_eq; reflexivity ].
    rewrite groups_be32, to_int32_residue by exact Hv.
    unfold stream_put, seek. cbn [contents pos eof]. rewrite He. reflexivity.
  - rewrite write_float_put.
    erewrite read_float_full;
      [ | reflexivity
        | etransitivity; [apply (stream_put_seek_available _ _ Hok)|];
          rewrite encode_float_eq, encode_int32_eq; reflexivity ].
    rewrite groups_be32, Z.mod_small, value_eta by exact Hx.
    unfold stream_put, seek. cbn [contents pos eof]. rewrite He. reflexivity.
Qed.

Lemma primitive_roundtrip_in_place_witness :
  let file := mkFILE [Byte.x01; Byte.x02; Byte.x03; Byte.x04; Byte.x05; Byte.x06]
                     1 false in
  stream_ok file /\ eof file = false /\ int32_range (-5) /\
  binary32_pattern (float_of_bits 0x7F800000) /\
  read_int32 zeroed (seek 1 (write_int32 file (-5)))
  = (-5, mkFILE [Byte.x01; Byte.xff; Byte.xff; Byte.xff; Byte.xfb; Byte.x06]
                5 false).
Proof.
  cbv zeta.
  assert (Hok : stream_ok
                  (mkFILE [Byte.x01; Byte.x02; Byte.x03; Byte.x04; Byte.x05;
                           Byte.x06] 1 false))
    by (unfold stream_ok; cbn; lia).
  assert (Hv : int32_range (-5)) by (unfold int32_range; lia).
  assert (Hx : binary32_pattern (float_of_bits 0x7F800000))
    by (unfold binary32_pattern, uint32_range; cbn [bits_of_float]; lia).
  split; [exact Hok|]. split; [reflexivity|].
  split; [exact Hv|]. split; [exact Hx|].
  etransitivity;
    [exact (proj1 (primitive_roundtrip_in_place zeroed _ (-5) _
                     Hok eq_refl Hv Hx))
    | reflexivity].
Defined.

(** X6. Round trip of a record in place: on a stream whose position is
    within its contents and whose end-of-file indicator is clear, stepping
    back over what [write_struct] put and calling [read_struct] there
    returns the record written, whatever the record behind the pointer
    held, and leaves the stream exactly as [write_struct] left it. *)
Theorem record_roundtrip_in_place (j1 j2 : uninit4) (file : FILE)
    (s s0 : MyStruct) :
  stream_ok file -> eof file = false ->
  int32_range (id s) -> binary32_pattern (value s) ->
  read_struct j1 j2 (seek (pos file) (write_struct file s)) s0
  = (s, write_struct file s).
Proof.
  intros Hok He Hi Hv.
  rewrite (write_struct_put file s Hok).
  erewrite read_struct_full;
    [ | reflexivity
      | etransitivity; [apply (stream_put_seek_available _ _ Hok)|];
        rewrite encode_float_eq, !encode_int32_eq; reflexivity ].
  rewrite !groups_be32, to_int32_residue, Z.mod_small, value_eta
    by assumption.
  unfold stream_put, seek. cbn [contents pos eof]. rewrite He.
  destruct s. reflexivity.
Qed.

Lemma record_roundtrip_in_place_witness :
  let file := write_int32 fopen_wb 7 in
  let s := mkMyStruct (-1) (float_of_bits 0x80000000) in
  stream_ok file /\ eof file = false /\
  int32_range (id s) /\ binary32_pattern (value s) /\
  read_struct zeroed zeroed (seek 4 (write_struct file s))
              (mkMyStruct 0 (float_of_bits 0))
  = (s, write_struct file s).
Proof.
  cbv zeta.
  assert (Hok : stream_ok (write_int32 fopen_wb 7))
    by (unfold stream_ok; cbn; lia).
  assert (Hi : int32_range (id (mkMyStruct (-1) (float_of_bits 0x80000000))))
    by (unfold int32_range; cbn [id]; lia).
  assert (Hv : binary32_pattern
                 (value (mkMyStruct (-1) (float_of_bits 0x80000000))))
    by (unfold binary32_pattern, uint32_range; cbn [value bits_of_float]; lia).
  split; [exact Hok|]. split; [reflexivity|].
  split; [exact Hi|]. split; [exact Hv|].
  exact (record_roundtrip_in_place zeroed zeroed _ _
           (mkMyStruct 0 (float_of_bits 0)) Hok eq_refl Hi Hv).
Defined.

(** A record read where its encoding lies ahead and the indicator is
    clear. *)
Lemma read_struct_encoded (j1 j2 : uninit4) (file : FILE) (s s0 : MyStruct)
    (tail : list uint8_t) :
  eof file = false ->
  int32_range (id s) -> binary32_pattern (value s) ->
  available file = encode_record s ++ tail ->
  read_struct j1 j2 file s0
  = (s, mkFILE (contents file) (pos file + 8) (eof file)).
Proof.
  intros He Hi Hv H.
  rewrite encode_record_eq, encode_float_eq, !encode_int32_eq in H.
  erewrite read_struct_full; [ | exact He | exact H ].
  rewrite !groups_be32, to_int32_residue, Z.mod_small, value_eta
    by assumption.
  destruct s. reflexivity.
Qed.

(** X7. Records in a row: after two calls of [write_struct] on a stream
    whose position is within its contents and whose end-of-file indicator
    is clear, two calls of [read_struct] from the position where the first
    write began return the first record and then the second, and leave the
    stream exactly as the second write left it. *)
Theorem two_records_in_sequence (j1 j2 j3 j4 : uninit4) (file : FILE)
    (s1 s2 s0 : MyStruct) :
  stream_ok file -> eof file = false ->
  int32_range (id s1) -> binary32_pattern (value s1) ->
  int32_range (id s2) -> binary32_pattern (value s2) ->
  let written := write_struct (write_struct file s1) s2 in
  let first := read_struct j1 j2 (seek (pos file) written) s0 in
  let second := read_struct j3 j4 (snd first) (fst first) in
  fst first = s1 /\ fst second = s2 /\ snd second = written.
Proof.
  intros Hok He Hi1 Hv1 Hi2 Hv2 written first second.
  assert (Hok1 : stream_ok (write_struct file s1))
    by (rewrite (write_struct_put file s1 Hok); apply stream_put_ok; exact Hok).
  assert (Ew : written
               = stream_put (encode_record s1 ++ encode_record s2) file).
  { subst written.
    rewrite (write_struct_put _ s2 Hok1), (write_struct_put file s1 Hok).
    rewrite <- !encode_record_eq. apply stream_put_put. exact Hok. }
  assert (Ea : available (seek (pos file) written)
               = encode_record s1
                   ++ encode_record s2
                   ++ skipn (pos file + 16) (contents file)).
  { rewrite Ew, (stream_put_seek_available _ _ Hok), <- app_assoc.
    reflexivity. }
  assert (E1 : first
               = (s1, mkFILE (contents written) (pos file + 8) false)).
  { subst first.
    rewrite (read_struct_encoded j1 j2 (seek (pos file) written) s1 s0 _
               eq_refl Hi1 Hv1 Ea).
    reflexivity. }
  subst second. rewrite E1. cbn [fst snd].
  erewrite (read_struct_encoded j3 j4
              (mkFILE (contents written) (pos file + 8) false) s2 s1 _
              eq_refl Hi2 Hv2).
  - cbn [fst snd contents pos eof]. repeat split.
    rewrite Ew. unfold stream_put. cbn [contents pos eof].
    rewrite <- Nat.add_assoc, He. reflexivity.
  - unfold available in *. cbn [contents pos seek] in *.
    rewrite skipn_plus, Ea. reflexivity.
Qed.

Lemma two_records_in_sequence_witness :
  let s1 := mkMyStruct 123 (float_of_bits 0x43E464FE) in
  let s2 := mkMyStruct (-7) (float_of_bits 0xFFC00001) in
  let written := write_struct (write_struct fopen_wb s1) s2 in
  stream_ok fopen_wb /\ eof fopen_wb = false /\
  int32_range (id s1) /\ binary32_pattern (value s1) /\
  int32_range (id s2) /\ binary32_pattern (value s2) /\
  fst (read_struct zeroed zeroed
         (snd (read_struct zeroed zeroed (seek 0 written) s2))
         (fst (read_struct zeroed zeroed (seek 0 written) s2)))
  = s2.
Proof.
  cbv zeta.
  assert (Hok : stream_ok fopen_wb) by (unfold stream_ok; cbn; lia).
  assert (H1 : int32_range (id (mkMyStruct 123 (float_of_bits 0x43E464FE))))
    by (unfold int32_range; cbn [id]; lia).
  assert (H2 : binary32_pattern
                 (value (mkMyStruct 123 (float_of_bits 0x43E464FE))))
    by (unfold binary32_pattern, uint32_range; cbn [value bits_of_float]; lia).
  assert (H3 : int32_range (id (mkMyStruct (-7) (float_of_bits 0xFFC00001))))
    by (unfold int32_range; cbn [id]; lia).
  assert (H4 : binary32_pattern
                 (value (mkMyStruct (-7) (float_of_bits 0xFFC00001))))
    by (unfold binary32_pattern, uint32_range; cbn [value bits_of_float]; lia).
  split; [exact Hok|]. split; [reflexivity|].
  repeat (split; [assumption|]).
  exact (proj1 (proj2
    (two_records_in_sequence zeroed zeroed zeroed zeroed fopen_wb _ _
       (mkMyStruct (-7) (float_of_bits 0xFFC00001)) Hok eq_refl
       H1 H2 H3 H4))).
Defined.

Lemma read_int32_ok (j : uninit4) (file : FILE) :
  stream_ok file -> stream_ok (snd (read_int32 j file)).
Proof.
  unfold stream_ok. intros H.
  pose proof (read_int32_any j file) as E. cbv zeta in E. rewrite E.
  cbn [snd contents pos].
  pose proof (readable_length file) as Hr. unfold available in Hr.
  rewrite length_skipn in Hr. rewrite length_firstn. lia.
Qed.

Lemma read_float_ok (j : uninit4) (file : FILE) :
  stream_ok file -> stream_ok (snd (read_float j file)).
Proof.
  unfold stream_ok. intros H.
  pose proof (read_float_any j file) as E. cbv zeta in E. rewrite E.
  cbn [snd contents pos].
  pose proof (readable_length file) as Hr. unfold available in Hr.
  rewrite length_skipn in Hr. rewrite length_firstn. lia.
Qed.

(** X8. The position stays within the contents: each of the six routines,
    called on a stream whose position is within its contents, leaves a
    stream of that kind, also when a read comes up short. *)
Theorem stream_ok_preserved (j1 j2 : uninit4) (file : FILE) (v : Z)
    (x : float) (s : MyStruct) :
  stream_ok file ->
  stream_ok (write_int32 file v) /\
  stream_ok (write_float file x) /\
  stream_ok (write_struct file s) /\
  stream_ok (snd (read_int32 j1 file)) /\
  stream_ok (snd (read_float j2 file)) /\
  stream_ok (snd (read_struct j1 j2 file s)).
Proof.
  intros H.
  rewrite write_int32_put, write_float_put, (write_struct_put file s H).
  rewrite read_struct_snd. cbn [snd].
  repeat split; auto using stream_put_ok, read_int32_ok, read_float_ok.
Qed.

Lemma stream_ok_preserved_witness :
  stream_ok (fopen_rb [Byte.x01; Byte.x02; Byte.x03; Byte.x04; Byte.x05]) /\
  stream_ok (snd (read_struct zeroed zeroed
                    (fopen_rb [Byte.x01; Byte.x02; Byte.x03; Byte.x04; Byte.x05])
                    (mkMyStruct 0 (float_of_bits 0)))).
Proof.
  assert (H : stream_ok
                (fopen_rb [Byte.x01; Byte.x02; Byte.x03; Byte.x04; Byte.x05]))
    by (unfold stream_ok; cbn; lia).
  split; [exact H|].
  exact (proj2 (proj2 (proj2 (proj2 (proj2
    (stream_ok_preserved zeroed zeroed _ 0 (float_of_bits 0)
       (mkMyStruct 0 (float_of_bits 0)) H)))))).
Defined.

Lemma stream_put_length (bs : list uint8_t) (file : FILE) :
  stream_ok file ->
  length (contents (stream_put bs file))
  = Nat.max (length (contents file)) (pos file + length bs).
Proof.
  unfold stream_ok, stream_put. cbn [contents]. intros H.
  rewrite !length_app, length_firstn, repeat_length, length_skipn. lia.
Qed.

(** X9. Size of the stream after a write: on a stream whose position is
    within its contents, a write over existing bytes keeps the length and a
    write reaching past the end extends the stream just to the new
    position; the length after [write_int32] or [write_float] is the
    larger of the old length and the old position plus four, after
    [write_struct] plus eight.  No write touches the end-of-file
    indicator. *)
Theorem write_length (file : FILE) (v : Z) (x : float) (s : MyStruct) :
  stream_ok file ->
  (length (contents (write_int32 file v))
   = Nat.max (length (contents file)) (pos file + 4) /\
   eof (write_int32 file v) = eof file) /\
  (length (contents (write_float file x))
   = Nat.max (length (contents file)) (pos file + 4) /\
   eof (write_float file x) = eof file) /\
  (length (contents (write_struct file s))
   = Nat.max (length (contents file)) (pos file + 8) /\
   eof (write_struct file s) = eof file).
Proof.
  intros H.
  rewrite write_int32_put, write_float_put, (write_struct_put file s H).
  rewrite !stream_put_length by exact H.
  repeat split.
Qed.

Lemma write_length_witness :
  let file := mkFILE [Byte.x01; Byte.x02; Byte.x03; Byte.x04; Byte.x05; Byte.x06]
                     1 true in
  stream_ok file /\
  length (contents (write_int32 file 9)) = 6%nat /\
  length (contents (write_struct file (mkMyStruct 9 (float_of_bits 0)))) = 9%nat.
Proof.
  cbv zeta.
  assert (H : stream_ok
                (mkFILE [Byte.x01; Byte.x02; Byte.x03; Byte.x04; Byte.x05;
                         Byte.x06] 1 true))
    by (unfold stream_ok; cbn; lia).
  split; [exact H|].
  destruct (write_length _ 9 (float_of_bits 0)
              (mkMyStruct 9 (float_of_bits 0)) H)
    as [[E1 _] [_ [E3 _]]].
  split; [etransitivity; [exact E1 | reflexivity]
         | etransitivity; [exact E3 | reflexivity]].
Defined.

(** X10. A short read shows in the end-of-file indicator and nowhere else:
    on a stream whose indicator is clear, after [read_int32] or
    [read_float] the indicator is set exactly when fewer than four bytes
    were ahead; reading the last four bytes of a stream leaves it clear.
    Either way the position advances by the number of bytes that were
    there, four at most. *)
Theorem short_read_sets_eof (j : uninit4) (file : FILE) :
  eof file = false ->
  (eof (snd (read_int32 j file)) = true
   <-> (length (available file) < 4)%nat) /\
  (eof (snd (read_float j file)) = true
   <-> (length (available file) < 4)%nat) /\
  pos (snd (read_int32 j file))
  = (pos file + Nat.min 4 (length (available file)))%nat /\
  pos (snd (read_float j file))
  = (pos file + Nat.min 4 (length (available file)))%nat.
Proof.
  intros H.
  assert (Hr : readable file = available file)
    by (unfold readable; rewrite H; reflexivity).
  pose proof (read_int32_any j file) as Ei. cbv zeta in Ei.
  pose proof (read_float_any j file) as Ef. cbv zeta in Ef.
  rewrite Hr in Ei, Ef. rewrite Ei, Ef.
  cbn [snd eof pos]. rewrite H, length_firstn. cbn [orb].
  rewrite Nat.ltb_lt.
  repeat split; intros; lia.
Qed.

Lemma short_read_sets_eof_witness :
  eof (fopen_rb [Byte.x01; Byte.x02; Byte.x03; Byte.x04]) = false /\
  eof (snd (read_int32 zeroed (fopen_rb [Byte.x01; Byte.x02; Byte.x03; Byte.x04])))
  <> true.
Proof.
  split; [reflexivity|].
  intros E.
  apply (proj1 (proj1 (short_read_sets_eof zeroed
                         (fopen_rb [Byte.x01; Byte.x02; Byte.x03; Byte.x04])
                         eq_refl))) in E.
  cbn in E. lia.
Defined.

Lemma to_int32_be32_inj (a0 a1 a2 a3 b0 b1 b2 b3 : uint8_t) :
  to_int32 (be32 a0 a1 a2 a3) = to_int32 (be32 b0 b1 b2 b3) ->
  u8 a3 = u8 b3.
Proof.
  unfold to_int32, be32. intros Heq. byte_bounds.
  Z.div_mod_to_equations. lia.
Qed.

(** X11. A short read returns what the buffer held: with fewer than four
    bytes ahead, the value [read_int32] returns, and the pattern of the
    float [read_float] returns, are not determined by the stream; two
    calls on the same stream whose local buffers held different bytes
    return different values. *)
Theorem short_read_depends_on_buffer (file : FILE) :
  (length (available file) < 4)%nat ->
  exists j j' : uninit4,
    fst (read_int32 j file) <> fst (read_int32 j' file) /\
    fst (read_float j file) <> fst (read_float j' file).
Proof.
  intros H. pose proof (readable_length file) as Hr.
  exists zeroed, (mk_uninit4 Byte.x00 Byte.x00 Byte.x00 Byte.x01).
  pose proof (fun j => read_int32_any j file) as Ei.
  pose proof (fun j => read_float_any j file) as Ef. cbv zeta in Ei, Ef.
  rewrite !Ei, !Ef. cbn [fst].
  rewrite firstn_all2 by lia.
  destruct (readable file) as [|a0 [|a1 [|a2 [|a3 l]]]];
    cbn [length] in Hr; try lia;
    unfold array_of, zeroed;
    cbn [length app skipn junk0 junk1 junk2 junk3];
    rewrite !assemble_be32;
    (split;
     [ intros E
     | intros E; injection E as E;
       rewrite !to_uint32_to_int32 in E by apply be32_range;
       apply (f_equal to_int32) in E ];
     apply to_int32_be32_inj in E; discriminate E).
Qed.

Lemma short_read_depends_on_buffer_witness :
  (length (available (fopen_rb [Byte.x12; Byte.x34])) < 4)%nat /\
  exists j j' : uninit4,
    fst (read_int32 j (fopen_rb [Byte.x12; Byte.x34]))
    <> fst (read_int32 j' (fopen_rb [Byte.x12; Byte.x34])) /\
    fst (read_float j (fopen_rb [Byte.x12; Byte.x34]))
    <> fst (read_float j' (fopen_rb [Byte.x12; Byte.x34])).
Proof.
  assert (H : (length (available (fopen_rb [Byte.x12; Byte.x34])) < 4)%nat)
    by (cbn; lia).
  split; [exact H|].
  exact (short_read_depends_on_buffer (fopen_rb [Byte.x12; Byte.x34]) H).
Defined.

(** The groups the writers extract are those of the wrapped value. *)
Lemma groups_to_int32 (z : Z) :
  (to_int32 z / 2 ^ 24) mod 256 = (z / 2 ^ 24) mod 256 /\
  (to_int32 z / 2 ^ 16) mod 256 = (z / 2 ^ 16) mod 256 /\
  (to_int32 z / 2 ^ 8) mod 256 = (z / 2 ^ 8) mod 256 /\
  to_int32 z mod 256 = z mod 256.
Proof.
  unfold to_int32. repeat split; Z.div_mod_to_equations; lia.
Qed.

(** X12. One layout for both primitives: the bytes [write_float] produces
    for a float are those [write_int32] produces for the 32-bit integer
    with the same bits, and on every stream, short or not, [read_float]
    returns the float whose pattern is the bits of what [read_int32]
    returns there, and leaves the same stream. *)
Theorem float_shares_int_layout (j : uninit4) (file : FILE) (x : float) :
  encode_float x = encode_int32 (to_int32 (bits_of_float x)) /\
  read_float j file
  = (float_of_bits (to_uint32 (fst (read_int32 j file))),
     snd (read_int32 j file)).
Proof.
  split;
    [|unfold read_float, read_int32;
      destruct (fread (array_of j) 4 1 file) as [[bytes n] file'];
      reflexivity].
  rewrite encode_float_eq, !encode_int32_eq.
  rewrite !group_div, !group_last by lia.
  destruct (groups_to_int32 (bits_of_float x)) as (-> & -> & -> & ->).
  reflexivity.
Qed.

(** * The sample program *)

(** X14. The program end to end: when "data.bin" can be opened for writing
    and then for reading, [main] prints 123 and the float with pattern
    0x43E464FE (456.789 to binary32 precision), whatever the file held
    before, whatever [read_s] and the local buffers held; it leaves exactly
    the eight bytes 00 00 00 7B 43 E4 64 FE in the file and returns 0. *)
Theorem main_end_to_end (st : storage) (read_s : MyStruct)
    (bytes_i bytes_f : uninit4) :
  may_write st = true -> may_read st = true ->
  main st read_s bytes_i bytes_f
  = mkResult 123 (float_of_bits 0x43E464FE) 0
      (mkStorage (Some [Byte.x00; Byte.x00; Byte.x00; Byte.x7b;
                        Byte.x43; Byte.xe4; Byte.x64; Byte.xfe])
                 true true).
Proof.
  destruct st as [d w r]. cbn [may_write may_read]. intros -> ->.
  unfold main, fopen_data_wb, fclose_data_wb, fopen_data_rb.
  cbn [may_write may_read data_bin option_map].
  fold (encode_record (mkMyStruct 123 (float_of_bits 0x43E464FE))).
  rewrite (read_struct_encoded bytes_i bytes_f _
             (mkMyStruct 123 (float_of_bits 0x43E464FE)) read_s []).
  - reflexivity.
  - reflexivity.
  - unfold int32_range. cbn [id]. lia.
  - unfold binary32_pattern, uint32_range. cbn [value bits_of_float]. lia.
  - unfold available, fopen_rb. cbn [pos contents skipn].
    symmetry. apply app_nil_r.
Qed.

Lemma main_end_to_end_witness :
  let st := mkStorage (Some [Byte.xde; Byte.xad]) true true in
  may_write st = true /\ may_read st = true /\
  printed_id (main st (mkMyStruct (-1) (float_of_bits 0xFFFFFFFF))
                   zeroed zeroed) = 123.
Proof.
  cbv zeta. split; [reflexivity|]. split; [reflexivity|].
  rewrite (main_end_to_end
             (mkStorage (Some [Byte.xde; Byte.xad]) true true)
             (mkMyStruct (-1) (float_of_bits 0xFFFFFFFF)) zeroed zeroed
             eq_refl eq_refl).
  reflexivity.
Defined.

(** X15. Nothing to read: when "data.bin" cannot be opened for reading,
    because reading is refused or because the file does not exist and could
    not be created, [main] still prints and returns 0; what it prints is
    the indeterminate contents [read_s] had from the start. *)
Theorem main_prints_uninitialised (st : storage) (read_s : MyStruct)
    (bytes_i bytes_f : uninit4) :
  may_read st = false \/ (may_write st = false /\ data_bin st = None) ->
  printed_id (main st read_s bytes_i bytes_f) = id read_s /\
  printed_value (main st read_s bytes_i bytes_f) = value read_s /\
  exit_status (main st read_s bytes_i bytes_f) = 0.
Proof.
  destruct st as [d w r]. cbn [may_write may_read data_bin].
  unfold main, fopen_data_wb, fclose_data_wb, fopen_data_rb.
  intros [-> | [-> ->]].
  - destruct w; cbn [may_write may_read]; repeat split.
  - cbn [may_write may_read data_bin option_map].
    destruct r; repeat split.
Qed.

Lemma main_prints_uninitialised_witness :
  let st := mkStorage None false true in
  (may_read st = false \/ (may_write st = false /\ data_bin st = None)) /\
  printed_id (main st (mkMyStruct 424242 (float_of_bits 1)) zeroed zeroed)
  = 424242.
Proof.
  cbv zeta.
  assert (H : may_read (mkStorage None false true) = false \/
              (may_write (mkStorage None false true) = false /\
               data_bin (mkStorage None false true) = None))
    by (right; split; reflexivity).
  split; [exact H|].
  exact (proj1 (main_prints_uninitialised _
                  (mkMyStruct 424242 (float_of_bits 1)) zeroed zeroed H)).
Defined.

(** X16. Stale data: when "data.bin" cannot be opened for writing but holds
    at least eight bytes and can be read, [main] prints the record decoded
    from the first eight bytes of the old file, not 123 and 456.789, and
    leaves the file as it was. *)
Theorem main_reads_stale_file (st : storage) (read_s : MyStruct)
    (bytes_i bytes_f : uninit4) (b0 b1 b2 b3 b4 b5 b6 b7 : uint8_t)
    (rest : list uint8_t) :
  may_write st = false -> may_read st = true ->
  data_bin st = Some (b0 :: b1 :: b2 :: b3 :: b4 :: b5 :: b6 :: b7 :: rest) ->
  main st read_s bytes_i bytes_f
  = mkResult (to_int32 (be32 b0 b1 b2 b3)) (float_of_bits (be32 b4 b5 b6 b7))
             0 st.
Proof.
  destruct st as [d w r]. cbn [may_write may_read data_bin].
  intros -> -> ->.
  unfold main, fopen_data_wb, fclose_data_wb, fopen_data_rb.
  cbn [may_write may_read data_bin option_map].
  erewrite read_struct_full by reflexivity. reflexivity.
Qed.

Lemma main_reads_stale_file_witness :
  let st := mkStorage (Some [Byte.xff; Byte.xff; Byte.xff; Byte.xfe;
                             Byte.x3f; Byte.x80; Byte.x00; Byte.x00;
                             Byte.x99])
                      false true in
  may_write st = false /\ may_read st = true /\
  main st (mkMyStruct 0 (float_of_bits 0)) zeroed zeroed
  = mkResult (-2) (float_of_bits 0x3F800000) 0 st.
Proof.
  cbv zeta. split; [reflexivity|]. split; [reflexivity|].
  etransitivity;
    [exact (main_reads_stale_file
              (mkStorage (Some [Byte.xff; Byte.xff; Byte.xff; Byte.xfe;
                                Byte.x3f; Byte.x80; Byte.x00; Byte.x00;
                                Byte.x99])
                         false true)
              (mkMyStruct 0 (float_of_bits 0)) zeroed zeroed
              Byte.xff Byte.xff Byte.xff Byte.xfe
              Byte.x3f Byte.x80 Byte.x00 Byte.x00 [Byte.x99]
              eq_refl eq_refl eq_refl)
    | reflexivity].
Defined.

(** X17. What [main] does to the file: when "data.bin" can be opened for
    writing, the file holds afterwards the eight bytes of the sample record
    and nothing of what it held before; when it cannot, the file is
    untouched.  Whether reading then succeeds plays no part. *)
Theorem main_storage (st : storage) (read_s : MyStruct)
    (bytes_i bytes_f : uninit4) :
  storage_after (main st read_s bytes_i bytes_f)
  = if may_write st
    then mkStorage (Some [Byte.x00; Byte.x00; Byte.x00; Byte.x7b;
                          Byte.x43; Byte.xe4; Byte.x64; Byte.xfe])
                   true (may_read st)
    else st.
Proof.
  destruct st as [d w r]. unfold main, fopen_data_wb, fclose_data_wb.
  cbn [may_write may_read storage_after]. destruct w; reflexivity.
Qed.
